(** * Table properties collector bridge (src/table_properties.rs)

    A shallow embedding of the Rust bridge between user-supplied table
    properties collectors and the storage engine's foreign callback API:
    the entry-type codec, the collector trampolines, the outbound and
    inbound property-map marshaling, the table-properties collection, and
    the counting collector of tests/test_table_properties.rs. *)

From Stdlib Require Import List ZArith NArith Bool Sorted Permutation Lia.
From Stdlib Require Import Strings.Byte Eqdep_dec.
From Stdlib Require Strings.String.
Import String.StringSyntax.
Delimit Scope string_scope with string.
Import ListNotations.

(** ** Byte strings: [&[u8]] / [Box<[u8]>] *)

Definition bytes := list byte.

(** [Ord for [u8]]: lexicographic comparison of the byte values. *)
Fixpoint bytes_cmp (a b : bytes) : comparison :=
  match a, b with
  | [], [] => Eq
  | [], _ :: _ => Lt
  | _ :: _, [] => Gt
  | x :: a', y :: b' =>
      match N.compare (Byte.to_N x) (Byte.to_N y) with
      | Eq => bytes_cmp a' b'
      | c => c
      end
  end.

Definition bytes_eqb (a b : bytes) : bool :=
  match bytes_cmp a b with Eq => true | _ => false end.

Definition bytes_eq_dec : forall a b : bytes, {a = b} + {a <> b} :=
  list_eq_dec Byte.byte_eq_dec.

(** [std::slice::from_raw_parts(ptr, len)]: the [len] bytes of the buffer
    that [ptr] points to. A buffer is the byte contents at the pointer. *)
Definition slice_from_raw_parts (buf : bytes) (len : nat) : bytes :=
  firstn len buf.

(** ** [BTreeMap<Box<[u8]>, Box<[u8]>>]

    Entries in iteration order; the type invariant of [BTreeMap] is that
    iteration is by strictly ascending key. *)

Definition entry := (bytes * bytes)%type.

Definition key_lt (p q : entry) : Prop := bytes_cmp (fst p) (fst q) = Lt.

Fixpoint key_sorted (l : list entry) : bool :=
  match l with
  | (k1, _) :: ((k2, _) :: _) as rest =>
      match bytes_cmp k1 k2 with Lt => key_sorted rest | _ => false end
  | _ => true
  end.

(** [BTreeMap::insert]: a new key goes to its place in key order; an
    existing key keeps its place and gets the new value. *)
Fixpoint raw_insert (k v : bytes) (l : list entry) : list entry :=
  match l with
  | [] => [(k, v)]
  | (k', v') :: l' =>
      match bytes_cmp k k' with
      | Lt => (k, v) :: l
      | Eq => (k', v) :: l'
      | Gt => (k', v') :: raw_insert k v l'
      end
  end.

Fixpoint raw_get (k : bytes) (l : list entry) : option bytes :=
  match l with
  | [] => None
  | (k', v') :: l' => if bytes_eqb k k' then Some v' else raw_get k l'
  end.

(** *** Properties of the byte order *)

Lemma to_N_inj (x y : byte) : Byte.to_N x = Byte.to_N y -> x = y.
Proof.
  intros H. pose proof (Byte.of_to_N x) as Hx. pose proof (Byte.of_to_N y) as Hy.
  rewrite H in Hx. congruence.
Qed.

Lemma bytes_cmp_refl (a : bytes) : bytes_cmp a a = Eq.
Proof. induction a as [|x a IH]; simpl; [reflexivity|]. now rewrite N.compare_refl. Qed.

Lemma bytes_cmp_eq (a b : bytes) : bytes_cmp a b = Eq -> a = b.
Proof.
  revert b; induction a as [|x a IH]; intros [|y b]; simpl; try discriminate; auto.
  destruct (N.compare (Byte.to_N x) (Byte.to_N y)) eqn:E; try discriminate.
  intros H. apply N.compare_eq_iff, to_N_inj in E. subst. f_equal. auto.
Qed.

Lemma bytes_cmp_eq_iff (a b : bytes) : bytes_cmp a b = Eq <-> a = b.
Proof. split; [apply bytes_cmp_eq | intros ->; apply bytes_cmp_refl]. Qed.

Lemma bytes_eqb_eq (a b : bytes) : bytes_eqb a b = true <-> a = b.
Proof.
  unfold bytes_eqb. rewrite <- bytes_cmp_eq_iff.
  destruct (bytes_cmp a b); split; congruence.
Qed.

Lemma bytes_cmp_antisym (a b : bytes) : bytes_cmp b a = CompOpp (bytes_cmp a b).
Proof.
  revert b; induction a as [|x a IH]; intros [|y b]; simpl; auto.
  rewrite (N.compare_antisym (Byte.to_N x) (Byte.to_N y)).
  destruct (N.compare (Byte.to_N x) (Byte.to_N y)); simpl; auto.
Qed.

Lemma bytes_cmp_lt_trans (a b c : bytes) :
  bytes_cmp a b = Lt -> bytes_cmp b c = Lt -> bytes_cmp a c = Lt.
Proof.
  revert b c; induction a as [|x a IH]; intros [|y b] [|z c]; simpl; auto;
    try discriminate.
  destruct (N.compare (Byte.to_N x) (Byte.to_N y)) eqn:E1; try discriminate;
  destruct (N.compare (Byte.to_N y) (Byte.to_N z)) eqn:E2; try discriminate;
    intros H1 H2; try discriminate.
  - apply N.compare_eq_iff in E1, E2. rewrite E1, E2, N.compare_refl. eauto.
  - apply N.compare_eq_iff in E1. now rewrite E1, E2.
  - apply N.compare_eq_iff in E2. now rewrite <- E2, E1.
  - assert (E : (Byte.to_N x ?= Byte.to_N z)%N = Lt)
      by (eapply N.lt_trans; eassumption).
    now rewrite E.
Qed.

Lemma key_lt_trans (p q r : entry) : key_lt p q -> key_lt q r -> key_lt p r.
Proof. unfold key_lt. apply bytes_cmp_lt_trans. Qed.

(** *** Sortedness of the entries *)

Lemma key_sorted_Sorted (l : list entry) : key_sorted l = true <-> Sorted key_lt l.
Proof.
  induction l as [|[k1 v1] l IH]; simpl.
  - split; auto.
  - destruct l as [|[k2 v2] l'].
    + split; auto.
    + split.
      * destruct (bytes_cmp k1 k2) eqn:E; try discriminate.
        intros H. constructor; [apply IH; exact H | constructor; exact E].
      * intros H. apply Sorted_inv in H as [H1 H2]. apply HdRel_inv in H2.
        unfold key_lt in H2; simpl in H2. rewrite H2. apply IH; exact H1.
Qed.

Lemma HdRel_raw_insert (a : entry) (k v : bytes) (l : list entry) :
  HdRel key_lt a l -> bytes_cmp (fst a) k = Lt -> HdRel key_lt a (raw_insert k v l).
Proof.
  intros H Hk. destruct l as [|[k' v'] l']; simpl.
  - constructor. exact Hk.
  - apply HdRel_inv in H.
    destruct (bytes_cmp k k'); constructor; unfold key_lt in *; simpl in *; auto.
Qed.

Lemma raw_insert_Sorted (k v : bytes) (l : list entry) :
  Sorted key_lt l -> Sorted key_lt (raw_insert k v l).
Proof.
  induction l as [|[k' v'] l' IH]; simpl; intros H.
  - constructor; constructor.
  - apply Sorted_inv in H as [H1 H2].
    destruct (bytes_cmp k k') eqn:E.
    + apply bytes_cmp_eq in E; subst.
      constructor; [exact H1|]. destruct l' as [|q l'']; constructor.
      apply HdRel_inv in H2. exact H2.
    + constructor; [constructor; assumption|]. constructor. exact E.
    + constructor; [apply IH; exact H1|]. apply HdRel_raw_insert; [exact H2|].
      simpl. rewrite bytes_cmp_antisym, E. reflexivity.
Qed.

Lemma key_sorted_raw_insert (k v : bytes) (l : list entry) :
  key_sorted l = true -> key_sorted (raw_insert k v l) = true.
Proof. rewrite !key_sorted_Sorted. apply raw_insert_Sorted. Qed.

(** *** The map type *)

Record BTreeMap := mk_btree {
  bt_entries : list entry;
  bt_sorted : key_sorted bt_entries = true
}.

(** [BTreeMap::new()] and [BTreeMap::default()] *)
Definition btree_new : BTreeMap := mk_btree [] eq_refl.

(** [BTreeMap::insert(k, v)] *)
Definition btree_insert (k v : bytes) (m : BTreeMap) : BTreeMap :=
  mk_btree (raw_insert k v (bt_entries m))
           (key_sorted_raw_insert k v (bt_entries m) (bt_sorted m)).

(** [BTreeMap::get(k)] *)
Definition btree_get (k : bytes) (m : BTreeMap) : option bytes :=
  raw_get k (bt_entries m).

(** [&map] iteration: [(key, value)] pairs in key order. *)
Definition btree_iter (m : BTreeMap) : list entry := bt_entries m.

Lemma btree_ext (m1 m2 : BTreeMap) : bt_entries m1 = bt_entries m2 -> m1 = m2.
Proof.
  destruct m1 as [l1 p1], m2 as [l2 p2]; simpl. intros <-.
  f_equal. apply UIP_dec, bool_dec.
Qed.

(** ** [EntryType] and its codec *)

Inductive EntryType :=
| Put
| Delete
| SingleDelete
| Merge
| RangeDeletion
| BlockIndex
| DeleteWithTimestamp
| WideColumnEntity
| TimedPut
| Other.

Definition EntryType_eq_dec : forall a b : EntryType, {a = b} + {a <> b}.
Proof. decide equality. Defined.

Definition all_entry_types : list EntryType :=
  [Put; Delete; SingleDelete; Merge; RangeDeletion; BlockIndex;
   DeleteWithTimestamp; WideColumnEntity; TimedPut; Other].

(** The [ffi::rocksdb_k_entry_*] constants ([u32]) of the engine's C
    header. Their numeric values are not part of this repository, so the
    codec is embedded for an arbitrary assignment of them. *)
Record ffi_entry_consts := {
  rocksdb_k_entry_put : Z;
  rocksdb_k_entry_delete : Z;
  rocksdb_k_entry_single_delete : Z;
  rocksdb_k_entry_merge : Z;
  rocksdb_k_entry_range_deletion : Z;
  rocksdb_k_entry_block_index : Z;
  rocksdb_k_entry_delete_with_timestamp : Z;
  rocksdb_k_entry_wide_column_entity : Z;
  rocksdb_k_entry_timed_put : Z;
  rocksdb_k_entry_other : Z
}.

(** The constant each match arm of [EntryType::from_raw] tests. *)
Definition entry_tag (ffi : ffi_entry_consts) (e : EntryType) : Z :=
  match e with
  | Put => rocksdb_k_entry_put ffi
  | Delete => rocksdb_k_entry_delete ffi
  | SingleDelete => rocksdb_k_entry_single_delete ffi
  | Merge => rocksdb_k_entry_merge ffi
  | RangeDeletion => rocksdb_k_entry_range_deletion ffi
  | BlockIndex => rocksdb_k_entry_block_index ffi
  | DeleteWithTimestamp => rocksdb_k_entry_delete_with_timestamp ffi
  | WideColumnEntity => rocksdb_k_entry_wide_column_entity ffi
  | TimedPut => rocksdb_k_entry_timed_put ffi
  | Other => rocksdb_k_entry_other ffi
  end.

(** [value as u32] for an [i32] value. *)
Definition i32_as_u32 (value : Z) : Z := (value mod 2 ^ 32)%Z.

(** [EntryType::from_raw]: the arms are tried top to bottom. *)
Definition EntryType_from_raw (ffi : ffi_entry_consts) (value : Z) : option EntryType :=
  if (value <? 0)%Z then None
  else
    let v := i32_as_u32 value in
    if (v =? rocksdb_k_entry_put ffi)%Z then Some Put
    else if (v =? rocksdb_k_entry_delete ffi)%Z then Some Delete
    else if (v =? rocksdb_k_entry_single_delete ffi)%Z then Some SingleDelete
    else if (v =? rocksdb_k_entry_merge ffi)%Z then Some Merge
    else if (v =? rocksdb_k_entry_range_deletion ffi)%Z then Some RangeDeletion
    else if (v =? rocksdb_k_entry_block_index ffi)%Z then Some BlockIndex
    else if (v =? rocksdb_k_entry_delete_with_timestamp ffi)%Z then Some DeleteWithTimestamp
    else if (v =? rocksdb_k_entry_wide_column_entity ffi)%Z then Some WideColumnEntity
    else if (v =? rocksdb_k_entry_timed_put ffi)%Z then Some TimedPut
    else if (v =? rocksdb_k_entry_other ffi)%Z then Some Other
    else None.

(** ** The [TablePropertiesCollector] trait

    A collector's methods take [&mut self]: each returns the collector's
    new state. [block_add] and [get_readable_properties] have default
    bodies in the trait; an implementation overrides them ([Some]) or
    keeps the default ([None]). Counters are [u64] values held in [Z]. *)

Class TablePropertiesCollector (C : Type) := {
  collector_name : C -> bytes;
  add_user_key : C -> bytes -> bytes -> EntryType -> Z -> Z -> C;
  block_add_override : option (C -> Z -> Z -> Z -> C);
  finish_properties : C -> C * BTreeMap;
  get_readable_properties_override : option (C -> C * BTreeMap)
}.

Section Collector.
Context {C : Type} `{TablePropertiesCollector C}.

(** [TablePropertiesCollector::block_add]; the default body is
    [let _ = (block_uncomp_bytes, ..);]. *)
Definition block_add (self : C) (block_uncomp_bytes block_compressed_bytes_fast
    block_compressed_bytes_slow : Z) : C :=
  match block_add_override with
  | Some f => f self block_uncomp_bytes block_compressed_bytes_fast
                block_compressed_bytes_slow
  | None => self
  end.

(** [TablePropertiesCollector::get_readable_properties]; the default
    body is [BTreeMap::default()]. *)
Definition get_readable_properties (self : C) : C * BTreeMap :=
  match get_readable_properties_override with
  | Some f => f self
  | None => (self, btree_new)
  end.

(** *** Collector trampolines

    The trampolines reach the collector through [raw_self]; here they take
    and return its state. A [None] result is a panic. *)

(** [collector_add_user_key_callback]: [EntryType::from_raw(..).unwrap()]. *)
Definition collector_add_user_key_callback (ffi : ffi_entry_consts) (self : C)
    (raw_key : bytes) (key_len : nat) (raw_value : bytes) (value_len : nat)
    (entry_type : Z) (seq file_size : Z) : option C :=
  let key := slice_from_raw_parts raw_key key_len in
  let value := slice_from_raw_parts raw_value value_len in
  match EntryType_from_raw ffi entry_type with
  | None => None
  | Some et => Some (add_user_key self key value et seq file_size)
  end.

(** [collector_block_add_callback] *)
Definition collector_block_add_callback (self : C) (block_uncomp_bytes
    block_compressed_bytes_fast block_compressed_bytes_slow : Z) : C :=
  block_add self block_uncomp_bytes block_compressed_bytes_fast
    block_compressed_bytes_slow.

End Collector.

(** *** Outbound marshaling

    One call of the engine's add-property function pointer, with the
    arguments it receives: the pointer itself, the [properties] sink, and
    the key and value buffers with their lengths. *)
Record add_property_call := AddPropertyCall {
  call_fn : Z;
  call_properties : Z;
  call_key : bytes;
  call_key_len : nat;
  call_value : bytes;
  call_value_len : nat
}.

(** [for (key, value) in &map { callback(properties, key.as_ptr(),
    key.len(), value.as_ptr(), value.len()); }] *)
Definition emit_properties (callback properties : Z) (map : BTreeMap)
    : list add_property_call :=
  List.map (fun '(key, value) =>
              AddPropertyCall callback properties key (length key)
                value (length value))
    (btree_iter map).

Section Trampolines.
Context {C : Type} `{TablePropertiesCollector C}.

(** [collector_finish_properties_callback]: the add-property pointer is an
    [Option<extern fn>]; [None] is the null pointer. *)
Definition collector_finish_properties_callback (self : C) (properties : Z)
    (add_user_properties_callback : option Z) : C * list add_property_call :=
  match add_user_properties_callback with
  | Some callback =>
      let (self', map) := finish_properties self in
      (self', emit_properties callback properties map)
  | None => (self, [])
  end.

(** [collector_get_readable_properties_callback] *)
Definition collector_get_readable_properties_callback (self : C) (properties : Z)
    (add_user_properties_callback : option Z) : C * list add_property_call :=
  match add_user_properties_callback with
  | Some callback =>
      let (self', map) := get_readable_properties self in
      (self', emit_properties callback properties map)
  | None => (self, [])
  end.

End Trampolines.

(** *** Inbound marshaling *)

(** [table_property_reader]: [state] is the [BTreeMap] accumulator; the
    key and value are copied out of the engine's buffers and inserted. *)
Definition table_property_reader (map : BTreeMap) (key_data : bytes) (key_len : nat)
    (value_data : bytes) (value_len : nat) : BTreeMap :=
  let key := slice_from_raw_parts key_data key_len in
  let value := slice_from_raw_parts value_data value_len in
  btree_insert key value map.

(** Engine side of the read contract ([for_each_property]): the per-pair
    function is called once for each stored pair, in the engine's order,
    with each buffer and its length. *)
Definition for_each_property (props : list entry) (state : BTreeMap)
    (per_pair : BTreeMap -> bytes -> nat -> bytes -> nat -> BTreeMap) : BTreeMap :=
  fold_left (fun st '(k, v) => per_pair st k (List.length k) v (List.length v))
    props state.

(** ** [TableProperties] and [TablePropertiesCollection] *)

Record TableProperties := { inner : Z }.

(** [TableProperties::from_raw] *)
Definition TableProperties_from_raw (inner : Z) : TableProperties :=
  {| inner := inner |}.

Record TablePropertiesCollection := { tables : list TableProperties }.

Section Accessors.
(** The engine's stored property sets of a table handle, as read by
    [rocksdb_table_properties_user_collected] and
    [rocksdb_table_properties_readable]. *)
Variable user_collected_set : Z -> list entry.
Variable readable_set : Z -> list entry.

(** [TableProperties::user_collected_properties] *)
Definition user_collected_properties (self : TableProperties) : BTreeMap :=
  for_each_property (user_collected_set (inner self)) btree_new table_property_reader.

(** [TableProperties::readable_properties] *)
Definition readable_properties (self : TableProperties) : BTreeMap :=
  for_each_property (readable_set (inner self)) btree_new table_property_reader.

End Accessors.

Section Collection.
(** The engine's collection handle and
    [rocksdb_table_properties_collection_next], which returns a table
    properties pointer, [0] being null. *)
Variable Engine : Type.
Variable rocksdb_table_properties_collection_next : Engine -> Engine * Z.

(** The [loop] of [TablePropertiesCollection::from_raw]. The fuel bounds
    the number of calls to [next]; [None] means it ran out. *)
Fixpoint collection_loop (fuel : nat) (collection : Engine)
    (tables : list TableProperties) : option (Engine * list TableProperties) :=
  match fuel with
  | O => None
  | S fuel' =>
      let (collection', properties) :=
        rocksdb_table_properties_collection_next collection in
      if (properties =? 0)%Z then Some (collection', tables)
      else collection_loop fuel' collection'
             (tables ++ [TableProperties_from_raw properties])
  end.

(** [TablePropertiesCollection::from_raw] *)
Definition TablePropertiesCollection_from_raw (fuel : nat) (collection : Engine)
    : option (Engine * TablePropertiesCollection) :=
  match collection_loop fuel collection [] with
  | Some (collection', tables) => Some (collection', {| tables := tables |})
  | None => None
  end.

(** [next_results e hs e']: from [e], successive calls of [next] return
    the non-null pointers [hs] and then null, leaving the engine in [e']. *)
Inductive next_results : Engine -> list Z -> Engine -> Prop :=
| next_results_null (e e' : Engine) :
    rocksdb_table_properties_collection_next e = (e', 0%Z) ->
    next_results e [] e'
| next_results_handle (e e1 e' : Engine) (h : Z) (hs : list Z) :
    rocksdb_table_properties_collection_next e = (e1, h) ->
    h <> 0%Z ->
    next_results e1 hs e' ->
    next_results e (h :: hs) e'.

End Collection.

(** ** The counting collector of tests/test_table_properties.rs *)

Record TablePropertiesCollectorImpl := {
  tpci_name : bytes;
  num_keys : Z;
  total_bytes : Z
}.

(** [usize] arithmetic, wrapping at 2^64. *)
Definition usize_wrap (n : Z) : Z := (n mod 2 ^ 64)%Z.

Definition digit_byte (d : Z) : byte :=
  match Byte.of_N (Z.to_N (48 + d)) with Some b => b | None => x30 end.

Fixpoint dec_digits (fuel : nat) (n : Z) (acc : bytes) : bytes :=
  match fuel with
  | O => acc
  | S fuel' =>
      let acc' := digit_byte (n mod 10) :: acc in
      if (n <? 10)%Z then acc' else dec_digits fuel' (n / 10) acc'
  end.

(** [usize::to_string().into_bytes()]: decimal, at most 20 digits. *)
Definition usize_to_string (n : Z) : bytes := dec_digits 20 n [].

Definition lit (s : String.string) : bytes := String.list_byte_of_string s.
Arguments lit s%_string.

Definition impl_add_user_key (self : TablePropertiesCollectorImpl) (key value : bytes)
    (entry_type : EntryType) (_seq _file_size : Z) : TablePropertiesCollectorImpl :=
  if EntryType_eq_dec entry_type Put then
    {| tpci_name := tpci_name self;
       num_keys := usize_wrap (num_keys self + 1);
       total_bytes := usize_wrap (total_bytes self
                        + usize_wrap (Z.of_nat (List.length key)
                                      + Z.of_nat (List.length value))) |}
  else self.

Definition impl_finish_properties (self : TablePropertiesCollectorImpl)
    : TablePropertiesCollectorImpl * BTreeMap :=
  let map := btree_new in
  let map := btree_insert (lit "num-keys"%string) (usize_to_string (num_keys self)) map in
  let map := btree_insert (lit "total-bytes"%string) (usize_to_string (total_bytes self)) map in
  (self, map).

#[export] Instance TablePropertiesCollector_Impl
  : TablePropertiesCollector TablePropertiesCollectorImpl := {
  collector_name := tpci_name;
  add_user_key := impl_add_user_key;
  block_add_override := Some (fun self _ _ _ => self);
  finish_properties := impl_finish_properties;
  get_readable_properties_override := Some (fun self => (self, btree_new))
}.

(** [TablePropertiesCollectorFactoryImpl::create] *)
Definition factory_impl_create : TablePropertiesCollectorImpl :=
  {| tpci_name := lit "table-properties-collector"%string; num_keys := 0; total_bytes := 0 |}.

(** ** Sanity checks on concrete inputs *)

Example usize_to_string_0 : usize_to_string 0 = lit "0"%string.
Proof. reflexivity. Qed.

Example usize_to_string_1207 : usize_to_string 1207 = lit "1207"%string.
Proof. reflexivity. Qed.

Example btree_insert_order :
  btree_iter (btree_insert (lit "b"%string) (lit "2"%string)
               (btree_insert (lit "a"%string) (lit "1"%string) (btree_insert (lit "b"%string) (lit "0"%string) btree_new)))
  = [(lit "a"%string, lit "1"%string); (lit "b"%string, lit "2"%string)].
Proof. reflexivity. Qed.

(** ** The entry-type codec *)

Section CodecProofs.
Variable ffi : ffi_entry_consts.
Hypothesis tags_distinct : NoDup (List.map (entry_tag ffi) all_entry_types).
Hypothesis tags_range : forall e, (0 <= entry_tag ffi e < 2 ^ 31)%Z.

Lemma i32_as_u32_nonneg (v : Z) : (0 <= v < 2 ^ 31)%Z -> i32_as_u32 v = v.
Proof. intros Hv. unfold i32_as_u32. apply Z.mod_small. lia. Qed.

(** Walk the arms of [from_raw] one by one; a matching arm either is the
    expected one or contradicts the distinctness of the tags. *)
Ltac close_arm :=
  subst;
  first [ reflexivity
        | exfalso; match goal with
                   | H : ~ _ |- _ =>
                       solve [ apply H; repeat first [ left; reflexivity | right ] ]
                   end ].

Ltac split_tests :=
  repeat match goal with
         | |- context [ (?a =? ?a)%Z ] => rewrite Z.eqb_refl
         | |- context [ if (?a =? ?b)%Z then _ else _ ] =>
             destruct (Z.eqb_spec a b); [ close_arm | ]
         end.

Ltac simpl_tags :=
  cbn [entry_tag List.map all_entry_types In rocksdb_k_entry_put rocksdb_k_entry_delete
       rocksdb_k_entry_single_delete rocksdb_k_entry_merge
       rocksdb_k_entry_range_deletion rocksdb_k_entry_block_index
       rocksdb_k_entry_delete_with_timestamp rocksdb_k_entry_wide_column_entity
       rocksdb_k_entry_timed_put rocksdb_k_entry_other] in *.

Lemma from_raw_tag (e : EntryType) : EntryType_from_raw ffi (entry_tag ffi e) = Some e.
Proof.
  pose proof (tags_range e) as Hr.
  unfold EntryType_from_raw.
  destruct (Z.ltb_spec (entry_tag ffi e) 0); [lia|].
  rewrite (i32_as_u32_nonneg _ Hr). clear Hr.
  pose proof tags_distinct as Hd.
  destruct ffi as [c0 c1 c2 c3 c4 c5 c6 c7 c8 c9]; simpl_tags.
  repeat match goal with
         | H : NoDup (_ :: _) |- _ => apply NoDup_cons_iff in H as [? H]
         end.
  simpl_tags.
  destruct e; simpl_tags; split_tests; reflexivity.
Qed.

Lemma from_raw_unknown (v : Z) :
  (-2 ^ 31 <= v < 2 ^ 31)%Z ->
  (v < 0 \/ (forall e, v <> entry_tag ffi e))%Z ->
  EntryType_from_raw ffi v = None.
Proof.
  intros Hv [Hneg | Hnot]; unfold EntryType_from_raw.
  - destruct (Z.ltb_spec v 0); [reflexivity | lia].
  - destruct (Z.ltb_spec v 0); [reflexivity|].
    rewrite i32_as_u32_nonneg by lia.
    pose proof (Hnot Put); pose proof (Hnot Delete); pose proof (Hnot SingleDelete);
    pose proof (Hnot Merge); pose proof (Hnot RangeDeletion); pose proof (Hnot BlockIndex);
    pose proof (Hnot DeleteWithTimestamp); pose proof (Hnot WideColumnEntity);
    pose proof (Hnot TimedPut); pose proof (Hnot Other).
    simpl_tags. repeat match goal with
      | |- context [ if (?a =? ?b)%Z then _ else _ ] =>
          destruct (Z.eqb_spec a b); [ congruence | ]
      end; reflexivity.
Qed.

End CodecProofs.

(** Claim C1. For every valid tag (each of the ten [ffi::rocksdb_k_entry_*]
    constants, assumed pairwise distinct and representable as a
    non-negative [i32]), [EntryType::from_raw] returns exactly the
    corresponding variant; for every negative or unrecognised [i32] tag it
    returns [None], and the add-user-key trampoline then panics ([None])
    instead of calling the collector with any default entry type. *)
Theorem EntryType_from_raw_exact (ffi : ffi_entry_consts) :
  NoDup (List.map (entry_tag ffi) all_entry_types) ->
  (forall e, (0 <= entry_tag ffi e < 2 ^ 31)%Z) ->
  (forall e, EntryType_from_raw ffi (entry_tag ffi e) = Some e) /\
  (forall v : Z, (-2 ^ 31 <= v < 2 ^ 31)%Z ->
     (v < 0 \/ (forall e, v <> entry_tag ffi e))%Z ->
     EntryType_from_raw ffi v = None /\
     (forall (C : Type) (inst : TablePropertiesCollector C) (self : C)
             (raw_key : bytes) (key_len : nat) (raw_value : bytes)
             (value_len : nat) (seq file_size : Z),
        collector_add_user_key_callback ffi self raw_key key_len raw_value
          value_len v seq file_size = None)).
Proof.
  intros Hd Hr. split.
  - intros e. apply from_raw_tag; assumption.
  - intros v Hv Hu.
    assert (Hn : EntryType_from_raw ffi v = None) by (apply from_raw_unknown; assumption).
    split; [exact Hn|].
    intros. unfold collector_add_user_key_callback. rewrite Hn. reflexivity.
Qed.

(** The tag assignment of the engine's [EntryType] enumeration, in
    declaration order. *)
Definition ffi_entry_consts_0_9 : ffi_entry_consts :=
  {| rocksdb_k_entry_put := 0; rocksdb_k_entry_delete := 1;
     rocksdb_k_entry_single_delete := 2; rocksdb_k_entry_merge := 3;
     rocksdb_k_entry_range_deletion := 4; rocksdb_k_entry_block_index := 5;
     rocksdb_k_entry_delete_with_timestamp := 6;
     rocksdb_k_entry_wide_column_entity := 7; rocksdb_k_entry_timed_put := 8;
     rocksdb_k_entry_other := 9 |}.

Lemma EntryType_from_raw_exact_witness :
  NoDup (List.map (entry_tag ffi_entry_consts_0_9) all_entry_types) /\
  (forall e, (0 <= entry_tag ffi_entry_consts_0_9 e < 2 ^ 31)%Z) /\
  EntryType_from_raw ffi_entry_consts_0_9 (entry_tag ffi_entry_consts_0_9 Merge) = Some Merge /\
  EntryType_from_raw ffi_entry_consts_0_9 12 = None.
Proof.
  assert (Hd : NoDup (List.map (entry_tag ffi_entry_consts_0_9) all_entry_types)).
  { simpl. repeat constructor; simpl; intuition discriminate. }
  assert (Hr : forall e, (0 <= entry_tag ffi_entry_consts_0_9 e < 2 ^ 31)%Z).
  { intros e; destruct e; simpl; lia. }
  split; [exact Hd|]. split; [exact Hr|]. split.
  - apply (proj1 (EntryType_from_raw_exact ffi_entry_consts_0_9 Hd Hr)).
  - apply (proj2 (EntryType_from_raw_exact ffi_entry_consts_0_9 Hd Hr)).
    + lia.
    + right. intros e; destruct e; simpl; discriminate.
Defined.

(** ** Lookup semantics of the map *)

Section MapLemmas.

Lemma raw_get_insert (k k' v : bytes) (l : list entry) :
  raw_get k' (raw_insert k v l) = if bytes_eqb k' k then Some v else raw_get k' l.
Proof.
  induction l as [|[k1 v1] l IH]; simpl; [reflexivity|].
  destruct (bytes_cmp k k1) eqn:E; simpl.
  - apply bytes_cmp_eq in E; subst.
    destruct (bytes_eqb k' k1); reflexivity.
  - reflexivity.
  - rewrite IH. destruct (bytes_eqb k' k) eqn:E1; [|reflexivity].
    apply bytes_eqb_eq in E1; subst.
    destruct (bytes_eqb k k1) eqn:E2; [|reflexivity].
    apply bytes_eqb_eq in E2; subst. rewrite bytes_cmp_refl in E. discriminate.
Qed.

Lemma Sorted_StronglySorted_key (l : list entry) :
  Sorted key_lt l -> StronglySorted key_lt l.
Proof. apply Sorted_StronglySorted. exact key_lt_trans. Qed.

Lemma raw_get_above (k : bytes) (l : list entry) :
  Forall (fun p => bytes_cmp k (fst p) = Lt) l -> raw_get k l = None.
Proof.
  induction l as [|[k1 v1] l IH]; simpl; intros H; [reflexivity|].
  inversion H as [|? ? Hk Hl]; subst; simpl in Hk.
  destruct (bytes_eqb k k1) eqn:E.
  - apply bytes_eqb_eq in E; subst. rewrite bytes_cmp_refl in Hk. discriminate.
  - apply IH; exact Hl.
Qed.

Lemma Forall_key_lower (k k' : bytes) (l : list entry) :
  bytes_cmp k k' = Lt ->
  Forall (fun p => key_lt (k', snd p) p) l ->
  Forall (fun p => bytes_cmp k (fst p) = Lt) l.
Proof.
  intros Hk H. eapply Forall_impl; [|exact H].
  intros p Hp. eapply bytes_cmp_lt_trans; [exact Hk | exact Hp].
Qed.

Lemma StronglySorted_head_fresh (k v : bytes) (l : list entry) :
  StronglySorted key_lt ((k, v) :: l) ->
  Forall (fun p => bytes_cmp k (fst p) = Lt) l.
Proof.
  intros H. apply StronglySorted_inv in H as [_ H].
  eapply Forall_impl; [|exact H]. intros p Hp. exact Hp.
Qed.

(** Two strictly sorted entry lists with the same lookups are equal. *)
Lemma raw_get_ext (l1 l2 : list entry) :
  StronglySorted key_lt l1 -> StronglySorted key_lt l2 ->
  (forall k, raw_get k l1 = raw_get k l2) -> l1 = l2.
Proof.
  revert l2; induction l1 as [|[k1 v1] l1 IH]; intros [|[k2 v2] l2] S1 S2 Hget.
  - reflexivity.
  - specialize (Hget k2). simpl in Hget. rewrite (proj2 (bytes_eqb_eq k2 k2) eq_refl) in Hget.
    discriminate.
  - specialize (Hget k1). simpl in Hget. rewrite (proj2 (bytes_eqb_eq k1 k1) eq_refl) in Hget.
    discriminate.
  - pose proof (StronglySorted_head_fresh _ _ _ S1) as F1.
    pose proof (StronglySorted_head_fresh _ _ _ S2) as F2.
    assert (Hk : k1 = k2).
    { destruct (bytes_cmp k1 k2) eqn:E.
      - apply bytes_cmp_eq; exact E.
      - exfalso. specialize (Hget k1). simpl in Hget.
        rewrite (proj2 (bytes_eqb_eq k1 k1) eq_refl) in Hget.
        assert (E' : bytes_eqb k1 k2 = false).
        { unfold bytes_eqb. rewrite E. reflexivity. }
        rewrite E' in Hget.
        rewrite raw_get_above in Hget; [discriminate|].
        eapply Forall_impl; [|exact F2]. intros p Hp.
        eapply bytes_cmp_lt_trans; [exact E | exact Hp].
      - exfalso. specialize (Hget k2). simpl in Hget.
        rewrite (proj2 (bytes_eqb_eq k2 k2) eq_refl) in Hget.
        assert (E' : bytes_eqb k2 k1 = false).
        { unfold bytes_eqb. rewrite bytes_cmp_antisym, E. reflexivity. }
        rewrite E' in Hget.
        rewrite raw_get_above in Hget; [discriminate|].
        eapply Forall_impl; [|exact F1]. intros p Hp.
        eapply bytes_cmp_lt_trans; [|exact Hp].
        rewrite bytes_cmp_antisym, E. reflexivity. }
    subst k2.
    assert (Hv : v1 = v2).
    { specialize (Hget k1). simpl in Hget.
      rewrite (proj2 (bytes_eqb_eq k1 k1) eq_refl) in Hget. congruence. }
    subst v2. f_equal. apply IH.
    + apply StronglySorted_inv in S1. tauto.
    + apply StronglySorted_inv in S2. tauto.
    + intros k. destruct (bytes_eqb k k1) eqn:E.
      * apply bytes_eqb_eq in E; subst.
        rewrite !raw_get_above by assumption. reflexivity.
      * specialize (Hget k). simpl in Hget. rewrite E in Hget. exact Hget.
Qed.

Lemma btree_StronglySorted (m : BTreeMap) : StronglySorted key_lt (bt_entries m).
Proof. apply Sorted_StronglySorted_key, key_sorted_Sorted, bt_sorted. Qed.

Lemma btree_get_ext (m1 m2 : BTreeMap) :
  (forall k, btree_get k m1 = btree_get k m2) -> m1 = m2.
Proof.
  intros H. apply btree_ext, raw_get_ext; try apply btree_StronglySorted. exact H.
Qed.

Lemma StronglySorted_NoDup_keys (l : list entry) :
  StronglySorted key_lt l -> NoDup (List.map fst l).
Proof.
  induction l as [|[k v] l IH]; simpl; intros H; constructor.
  - intros Hin. apply StronglySorted_head_fresh in H.
    apply in_map_iff in Hin as [[k' v'] [Hk Hin]]; simpl in Hk; subst k'.
    rewrite Forall_forall in H. specialize (H _ Hin). simpl in H.
    rewrite bytes_cmp_refl in H. discriminate.
  - apply IH. apply StronglySorted_inv in H. tauto.
Qed.

Lemma In_keys_raw_get (k : bytes) (l : list entry) :
  In k (List.map fst l) <-> raw_get k l <> None.
Proof.
  induction l as [|[k1 v1] l IH]; simpl.
  - split; [tauto | intros H; apply H; reflexivity].
  - destruct (bytes_eqb k k1) eqn:E.
    + apply bytes_eqb_eq in E; subst. split; [discriminate | left; reflexivity].
    + rewrite <- IH. split; [intros [H|H]; [|exact H] | intros H; right; exact H].
      subst. rewrite (proj2 (bytes_eqb_eq k k) eq_refl) in E. discriminate.
Qed.

End MapLemmas.

(** ** Inbound accumulation *)

(** The value of the last pair reported under [k]. *)
Fixpoint last_value (k : bytes) (ps : list entry) : option bytes :=
  match ps with
  | [] => None
  | (k', v') :: ps' =>
      match last_value k ps' with
      | Some v => Some v
      | None => if bytes_eqb k k' then Some v' else None
      end
  end.

(** The map [user_collected_properties] / [readable_properties] build
    from the pairs the engine reports. *)
Definition read_properties (ps : list entry) : BTreeMap :=
  for_each_property ps btree_new table_property_reader.

Lemma for_each_reader_get (k : bytes) (ps : list entry) (m : BTreeMap) :
  btree_get k (for_each_property ps m table_property_reader) =
  match last_value k ps with Some v => Some v | None => btree_get k m end.
Proof.
  unfold for_each_property.
  revert m; induction ps as [|[k1 v1] ps IH]; intros m; cbn [fold_left last_value].
  { reflexivity. }
  rewrite IH.
  destruct (last_value k ps); [reflexivity|].
  unfold table_property_reader, slice_from_raw_parts, btree_get, btree_insert; simpl.
  rewrite !firstn_all, raw_get_insert. destruct (bytes_eqb k k1); reflexivity.
Qed.

Lemma read_properties_get (k : bytes) (ps : list entry) :
  btree_get k (read_properties ps) = last_value k ps.
Proof.
  unfold read_properties. rewrite for_each_reader_get.
  destruct (last_value k ps); reflexivity.
Qed.

Lemma last_value_raw_get (k : bytes) (ps : list entry) :
  NoDup (List.map fst ps) -> last_value k ps = raw_get k ps.
Proof.
  induction ps as [|[k1 v1] ps IH]; simpl; intros Hd; [reflexivity|].
  inversion Hd as [|? ? Hnin Hd']; subst.
  rewrite IH by exact Hd'.
  destruct (bytes_eqb k k1) eqn:E.
  - apply bytes_eqb_eq in E; subst.
    destruct (raw_get k1 ps) eqn:G; [|reflexivity].
    exfalso. apply Hnin, In_keys_raw_get. rewrite G. discriminate.
  - destruct (raw_get k ps); reflexivity.
Qed.

Lemma raw_get_Permutation (k : bytes) (ps qs : list entry) :
  Permutation ps qs -> NoDup (List.map fst ps) -> raw_get k ps = raw_get k qs.
Proof.
  induction 1 as [|[k1 v1] l l' P IH|[k1 v1] [k2 v2] l|l l' l'' P1 IH1 P2 IH2];
    simpl; intros Hd.
  - reflexivity.
  - inversion Hd; subst. rewrite IH by assumption. reflexivity.
  - inversion Hd as [|? ? Hnin _]; subst. simpl in Hnin.
    destruct (bytes_eqb k k2) eqn:E2, (bytes_eqb k k1) eqn:E1; try reflexivity.
    apply bytes_eqb_eq in E1, E2; subst. tauto.
  - rewrite IH1 by exact Hd. apply IH2.
    eapply Permutation_NoDup; [apply Permutation_map; exact P1 | exact Hd].
Qed.

Lemma last_value_In (k : bytes) (ps : list entry) :
  last_value k ps <> None <-> In k (List.map fst ps).
Proof.
  induction ps as [|[k1 v1] ps IH]; simpl.
  - split; [intros H; apply H; reflexivity | tauto].
  - destruct (last_value k ps) eqn:L.
    + split; [intros _; right; apply IH; discriminate | discriminate].
    + destruct (bytes_eqb k k1) eqn:E.
      * apply bytes_eqb_eq in E; subst. split; [intros _; left; reflexivity | discriminate].
      * split; [intros H; exfalso; apply H; reflexivity|].
        intros [H|H].
        -- subst. rewrite (proj2 (bytes_eqb_eq k k) eq_refl) in E. discriminate.
        -- apply IH in H. contradiction.
Qed.

(** ** The engine's copy of an emitted pair

    The engine's add-property function keeps [key_len] bytes of the key
    buffer and [value_len] bytes of the value buffer (engine side, not in
    this repository). *)
Definition engine_copy (c : add_property_call) : entry :=
  (slice_from_raw_parts (call_key c) (call_key_len c),
   slice_from_raw_parts (call_value c) (call_value_len c)).

Definition call_key_lt (c1 c2 : add_property_call) : Prop :=
  bytes_cmp (call_key c1) (call_key c2) = Lt.

Lemma emit_properties_copy (callback properties : Z) (map : BTreeMap) :
  List.map engine_copy (emit_properties callback properties map) = btree_iter map.
Proof.
  unfold emit_properties, btree_iter. induction (bt_entries map) as [|[k v] l IH];
    simpl; [reflexivity|].
  rewrite IH. unfold engine_copy, slice_from_raw_parts; simpl. rewrite !firstn_all. reflexivity.
Qed.

Lemma emit_properties_sorted (callback properties : Z) (map : BTreeMap) :
  StronglySorted call_key_lt (emit_properties callback properties map).
Proof.
  unfold emit_properties, btree_iter. pose proof (btree_StronglySorted map) as S.
  induction (bt_entries map) as [|[k v] l IH]; simpl; constructor.
  - apply IH. apply StronglySorted_inv in S. tauto.
  - apply StronglySorted_head_fresh in S.
    apply Forall_map. eapply Forall_impl; [|exact S].
    intros [k' v'] Hp. exact Hp.
Qed.

Lemma collection_loop_complete (Engine : Type) (next : Engine -> Engine * Z)
    (e e' : Engine) (hs : list Z) :
  next_results Engine next e hs e' ->
  forall fuel acc, (List.length hs < fuel)%nat ->
  collection_loop Engine next fuel e acc =
    Some (e', acc ++ List.map TableProperties_from_raw hs).
Proof.
  induction 1 as [e e' Hn|e e1 e' h hs Hn Hh R IH]; intros [|fuel] acc Hf;
    simpl in *; try lia.
  - rewrite Hn. simpl. rewrite app_nil_r. reflexivity.
  - rewrite Hn. destruct (Z.eqb_spec h 0); [contradiction|].
    rewrite IH by lia. rewrite <- app_assoc. reflexivity.
Qed.

Lemma collection_loop_sound (Engine : Type) (next : Engine -> Engine * Z)
    (e e' : Engine) (hs : list Z) :
  next_results Engine next e hs e' ->
  forall fuel acc r, collection_loop Engine next fuel e acc = Some r ->
  r = (e', acc ++ List.map TableProperties_from_raw hs).
Proof.
  induction 1 as [e e' Hn|e e1 e' h hs Hn Hh R IH]; intros [|fuel] acc r Hl;
    simpl in *; try discriminate.
  - rewrite Hn in Hl. simpl in Hl. rewrite app_nil_r. congruence.
  - rewrite Hn in Hl. destruct (Z.eqb_spec h 0); [contradiction|].
    apply IH in Hl. rewrite <- app_assoc in Hl. exact Hl.
Qed.

(** A collector keeping the trait's default [block_add] and
    [get_readable_properties]: the counting collector without its
    overrides. *)
Definition default_methods_collector : TablePropertiesCollector TablePropertiesCollectorImpl :=
  {| collector_name := tpci_name;
     add_user_key := impl_add_user_key;
     block_add_override := None;
     finish_properties := impl_finish_properties;
     get_readable_properties_override := None |}.

(** ** The [TablePropertiesCollectorFactory] trait and its create trampoline *)

Record TablePropertiesCollectorFactoryContext := {
  level_at_creation : Z
}.

(** [TablePropertiesCollectorFactoryContext::from_raw]: the level the
    engine's context handle reports. *)
Definition TablePropertiesCollectorFactoryContext_from_raw (level : Z)
    : TablePropertiesCollectorFactoryContext :=
  {| level_at_creation := level |}.

(** The factory trait; [C] is its associated [Collector] type. *)
Class TablePropertiesCollectorFactory (F C : Type) := {
  factory_create : F -> TablePropertiesCollectorFactoryContext -> F * C;
  factory_name : F -> bytes
}.

(** [create_table_properties_collector_callback]: decode the context,
    call [create], and hand the new collector to the engine (the boxing and
    the collector vtable are the engine's view of it). *)
Definition create_table_properties_collector_callback {F C : Type}
    `{TablePropertiesCollectorFactory F C} (self : F) (context_level : Z) : F * C :=
  let context := TablePropertiesCollectorFactoryContext_from_raw context_level in
  factory_create self context.

(** [TablePropertiesCollectorFactoryImpl] of the conformance test. *)
Record TablePropertiesCollectorFactoryImpl := { tpcfi_name : bytes }.

#[export] Instance TablePropertiesCollectorFactory_Impl
  : TablePropertiesCollectorFactory TablePropertiesCollectorFactoryImpl
      TablePropertiesCollectorImpl := {
  factory_create := fun self _ctx => (self, factory_impl_create);
  factory_name := tpcfi_name
}.

(** ** A table build driven through the trampolines

    The calls the engine makes on one collector between its creation and
    [finish_properties]: add-user-key calls with raw buffers and a raw
    entry-type tag, and block-add calls. A panicking call ends the build
    ([None]). *)
Inductive build_call :=
| CallAddUserKey (raw_key : bytes) (key_len : nat) (raw_value : bytes)
    (value_len : nat) (entry_type : Z) (seq file_size : Z)
| CallBlockAdd (block_uncomp_bytes block_compressed_bytes_fast
    block_compressed_bytes_slow : Z).

Fixpoint run_build (ffi : ffi_entry_consts) {C : Type} `{TablePropertiesCollector C}
    (self : C) (calls : list build_call) : option C :=
  match calls with
  | [] => Some self
  | CallAddUserKey raw_key key_len raw_value value_len entry_type seq file_size :: rest =>
      match collector_add_user_key_callback ffi self raw_key key_len raw_value
              value_len entry_type seq file_size with
      | Some self' => run_build ffi self' rest
      | None => None
      end
  | CallBlockAdd a b c :: rest => run_build ffi (collector_block_add_callback self a b c) rest
  end.

(** The tag of a call is recognised by the codec (block-add calls carry
    none). *)
Definition call_tag_ok (ffi : ffi_entry_consts) (c : build_call) : Prop :=
  match c with
  | CallAddUserKey _ _ _ _ entry_type _ _ => EntryType_from_raw ffi entry_type <> None
  | CallBlockAdd _ _ _ => True
  end.

(** The key and value a collector receives from each add-user-key call
    whose tag decodes to [Put]. *)
Fixpoint put_records (ffi : ffi_entry_consts) (calls : list build_call) : list entry :=
  match calls with
  | [] => []
  | CallAddUserKey raw_key key_len raw_value value_len entry_type _ _ :: rest =>
      match EntryType_from_raw ffi entry_type with
      | Some Put => (slice_from_raw_parts raw_key key_len,
                     slice_from_raw_parts raw_value value_len) :: put_records ffi rest
      | _ => put_records ffi rest
      end
  | CallBlockAdd _ _ _ :: rest => put_records ffi rest
  end.

(** Sum of the key and value lengths of some records. *)
Definition record_bytes (ps : list entry) : Z :=
  fold_right (fun '(k, v) acc =>
                (Z.of_nat (List.length k) + Z.of_nat (List.length v) + acc)%Z) 0%Z ps.

(** Trait-level [add_user_key] calls: key, value, entry type, seq, file size. *)
Definition user_key_record := (bytes * bytes * EntryType * Z * Z)%type.

Definition feed {C : Type} `{TablePropertiesCollector C} (self : C)
    (records : list user_key_record) : C :=
  fold_left (fun s '(k, v, et, sq, fs) => add_user_key s k v et sq fs) records self.

Definition put_pairs (records : list user_key_record) : list entry :=
  List.map (fun '(k, v, _, _, _) => (k, v))
    (filter (fun '(_, _, et, _, _) =>
               if EntryType_eq_dec et Put then true else false) records).

(** ** Decimal renderings *)

Definition is_ascii_digit (b : byte) : bool :=
  (48 <=? Byte.to_N b)%N && (Byte.to_N b <=? 57)%N.

Definition decimal_value (s : bytes) : Z :=
  fold_left (fun acc b => (acc * 10 + (Z.of_N (Byte.to_N b) - 48))%Z) s 0%Z.

(** [s] is the canonical decimal rendering of [n]: non-empty ASCII digits
    of value [n], without a leading zero unless [s] is "0". *)
Definition renders_decimal (s : bytes) (n : Z) : Prop :=
  s <> [] /\ forallb is_ascii_digit s = true /\ decimal_value s = n /\
  match s with x30 :: _ :: _ => False | _ => True end.

(** ** Inputs of the examples below *)

(** A collector whose readable properties are its finished properties. *)
Definition readable_echo_collector : TablePropertiesCollector TablePropertiesCollectorImpl :=
  {| collector_name := tpci_name;
     add_user_key := impl_add_user_key;
     block_add_override := None;
     finish_properties := impl_finish_properties;
     get_readable_properties_override := Some impl_finish_properties |}.

Definition feed_witness_records : list user_key_record :=
  [(lit "k1", lit "a", Put, 1%Z, 0%Z); (lit "k2", lit "bb", Delete, 2%Z, 0%Z);
   (lit "k3", lit "", Put, 3%Z, 0%Z)].

(** A build call that reaches [add_user_key]. *)
Definition is_add_call (c : build_call) : bool :=
  match c with
  | CallAddUserKey _ _ _ _ _ _ _ => true
  | CallBlockAdd _ _ _ => false
  end.

(** A [Put] of "k1" = "a", a block, and a [Delete] of "k2" (tags 0..9). *)
Definition build_witness_calls : list build_call :=
  [CallAddUserKey (lit "k1") 2 (lit "a") 1 0 1 0;
   CallBlockAdd 4096 1024 1024;
   CallAddUserKey (lit "k2") 2 (lit "bc") 2 1 2 0].

(** * Claims *)

(** Claim C2. Round trip: the pairs that the finish-properties trampoline
    pushes through the add-property pointer, once copied by the engine and
    read back by [user_collected_properties] (in the emitted order or any
    reordering of it), rebuild exactly the map [finish_properties]
    returned. *)
Theorem property_map_roundtrip {C : Type} `{TablePropertiesCollector C} (self : C)
    (properties callback : Z) (user_collected_set : Z -> list entry)
    (table : TableProperties) :
  Permutation (user_collected_set (inner table))
    (List.map engine_copy
       (snd (collector_finish_properties_callback self properties (Some callback)))) ->
  user_collected_properties user_collected_set table = snd (finish_properties self).
Proof.
  intros P. unfold collector_finish_properties_callback in P.
  destruct (finish_properties self) as [self' map]; simpl in *.
  rewrite emit_properties_copy in P. unfold btree_iter in P.
  assert (Hd : NoDup (List.map fst (user_collected_set (inner table)))).
  { eapply Permutation_NoDup.
    - apply Permutation_map, Permutation_sym, P.
    - apply StronglySorted_NoDup_keys, btree_StronglySorted. }
  apply btree_get_ext. intros k.
  change (btree_get k (read_properties (user_collected_set (inner table))) = btree_get k map).
  rewrite read_properties_get, last_value_raw_get by exact Hd.
  unfold btree_get. apply raw_get_Permutation; assumption.
Qed.

Lemma property_map_roundtrip_witness :
  Permutation
    (rev (List.map engine_copy
            (snd (collector_finish_properties_callback factory_impl_create 0 (Some 1%Z)))))
    (List.map engine_copy
       (snd (collector_finish_properties_callback factory_impl_create 0 (Some 1%Z)))) /\
  user_collected_properties
    (fun _ => rev (List.map engine_copy
                     (snd (collector_finish_properties_callback factory_impl_create 0 (Some 1%Z)))))
    (TableProperties_from_raw 5)
  = snd (finish_properties factory_impl_create).
Proof.
  assert (P : Permutation
    (rev (List.map engine_copy
            (snd (collector_finish_properties_callback factory_impl_create 0 (Some 1%Z)))))
    (List.map engine_copy
       (snd (collector_finish_properties_callback factory_impl_create 0 (Some 1%Z))))).
  { apply Permutation_sym, Permutation_rev. }
  split; [exact P|].
  apply (property_map_roundtrip factory_impl_create 0 1
           (fun _ => rev (List.map engine_copy
              (snd (collector_finish_properties_callback factory_impl_create 0 (Some 1%Z)))))
           (TableProperties_from_raw 5)).
  exact P.
Defined.

(** Claim C3. Given a non-null add-property pointer, the finish-properties
    trampoline calls [finish_properties] once, then calls the pointer once
    per pair of the returned map, in the map's iteration order (strictly
    ascending byte-lexicographic keys), each call receiving that pointer,
    the [properties] sink, the pair's key with its length and its value
    with its length. *)
Theorem finish_properties_callback_calls {C : Type} `{TablePropertiesCollector C}
    (self : C) (properties callback : Z) :
  let calls := snd (collector_finish_properties_callback self properties (Some callback)) in
  fst (collector_finish_properties_callback self properties (Some callback))
    = fst (finish_properties self) /\
  List.map (fun c => (call_key c, call_value c)) calls
    = btree_iter (snd (finish_properties self)) /\
  Forall (fun c => call_fn c = callback /\ call_properties c = properties /\
                   call_key_len c = List.length (call_key c) /\
                   call_value_len c = List.length (call_value c)) calls /\
  StronglySorted call_key_lt calls.
Proof.
  cbv zeta. unfold collector_finish_properties_callback.
  destruct (finish_properties self) as [self' map]; simpl.
  split; [reflexivity|]. split; [|split].
  - unfold emit_properties, btree_iter. induction (bt_entries map) as [|[k v] l IH];
      simpl; [reflexivity|]. rewrite IH. reflexivity.
  - unfold emit_properties. apply Forall_map.
    apply Forall_forall. intros [k v] _. simpl. tauto.
  - apply emit_properties_sorted.
Qed.

(** Claim C4. If, from the collection handle's state [e], successive calls
    of the engine's [next] return the non-null pointers [hs] and then null
    (leaving state [e']), [TablePropertiesCollection::from_raw] ends right
    after that first null, and its [tables] hold exactly one
    [TableProperties] per pointer of [hs], in the order returned, and none
    for the null; no other result is possible. *)
Theorem collection_from_raw_drains (Engine : Type) (next : Engine -> Engine * Z)
    (e e' : Engine) (hs : list Z) :
  next_results Engine next e hs e' ->
  (forall fuel, (List.length hs < fuel)%nat ->
     TablePropertiesCollection_from_raw Engine next fuel e
       = Some (e', {| tables := List.map TableProperties_from_raw hs |})) /\
  (forall fuel r, TablePropertiesCollection_from_raw Engine next fuel e = Some r ->
     r = (e', {| tables := List.map TableProperties_from_raw hs |})).
Proof.
  intros R. unfold TablePropertiesCollection_from_raw. split.
  - intros fuel Hf. rewrite (collection_loop_complete Engine next e e' hs R fuel [] Hf).
    reflexivity.
  - intros fuel r Hl.
    destruct (collection_loop Engine next fuel e []) as [[e2 ts]|] eqn:L; [|discriminate].
    apply (collection_loop_sound Engine next e e' hs R) in L.
    injection L as -> ->. injection Hl as <-. reflexivity.
Qed.

(** An engine collection whose state is the list of pointers still to be
    returned. *)
Definition list_collection_next (l : list Z) : list Z * Z :=
  match l with
  | [] => ([], 0%Z)
  | h :: t => (t, h)
  end.

Lemma collection_from_raw_drains_witness :
  next_results (list Z) list_collection_next [7; 3]%Z [7; 3]%Z [] /\
  TablePropertiesCollection_from_raw (list Z) list_collection_next 3 [7; 3]%Z
    = Some ([], {| tables := [TableProperties_from_raw 7; TableProperties_from_raw 3] |}).
Proof.
  assert (R : next_results (list Z) list_collection_next [7; 3]%Z [7; 3]%Z []).
  { eapply next_results_handle; [reflexivity | discriminate |].
    eapply next_results_handle; [reflexivity | discriminate |].
    apply next_results_null. reflexivity. }
  split; [exact R|].
  apply (proj1 (collection_from_raw_drains (list Z) list_collection_next _ _ _ R) 3).
  simpl. lia.
Defined.

(** Claim C5. For a collector keeping the default
    [get_readable_properties], the method returns the collector unchanged
    with an empty map (a map, never absent), and the readable-properties
    trampoline calls the add-property pointer zero times. *)
Theorem default_get_readable_properties_empty {C : Type} `{TablePropertiesCollector C} :
  get_readable_properties_override = None ->
  forall (self : C) (properties : Z) (callback : option Z),
    get_readable_properties self = (self, btree_new) /\
    btree_iter (snd (get_readable_properties self)) = [] /\
    collector_get_readable_properties_callback self properties callback = (self, []).
Proof.
  intros Hd self properties callback.
  unfold collector_get_readable_properties_callback, get_readable_properties.
  rewrite Hd. split; [reflexivity|]. split; [reflexivity|].
  destruct callback; reflexivity.
Qed.

Lemma default_get_readable_properties_empty_witness :
  @get_readable_properties_override _ default_methods_collector = None /\
  @collector_get_readable_properties_callback _ default_methods_collector
     factory_impl_create 0 (Some 1%Z) = (factory_impl_create, []).
Proof.
  assert (Hd : @get_readable_properties_override _ default_methods_collector = None)
    by reflexivity.
  split; [exact Hd|].
  apply (@default_get_readable_properties_empty _ default_methods_collector Hd
           factory_impl_create 0 (Some 1%Z)).
Defined.

(** Claim C6. For a collector keeping the default [block_add], a call with
    any three byte counts, directly or through the block-add trampoline,
    leaves the collector's state unchanged. *)
Theorem default_block_add_noop {C : Type} `{TablePropertiesCollector C} :
  block_add_override = None ->
  forall (self : C) (block_uncomp_bytes block_compressed_bytes_fast
                     block_compressed_bytes_slow : Z),
    block_add self block_uncomp_bytes block_compressed_bytes_fast
      block_compressed_bytes_slow = self /\
    collector_block_add_callback self block_uncomp_bytes block_compressed_bytes_fast
      block_compressed_bytes_slow = self.
Proof.
  intros Hd self a b c. unfold collector_block_add_callback, block_add.
  rewrite Hd. split; reflexivity.
Qed.

Lemma default_block_add_noop_witness :
  @block_add_override _ default_methods_collector = None /\
  @block_add _ default_methods_collector factory_impl_create 4096 1024 900
    = factory_impl_create.
Proof.
  assert (Hd : @block_add_override _ default_methods_collector = None) by reflexivity.
  split; [exact Hd|].
  apply (proj1 (@default_block_add_noop _ default_methods_collector Hd
                  factory_impl_create 4096 1024 900)).
Defined.

(** Claim C7. The counting collector of the conformance test, created by
    its factory and given one [add_user_key] of key "k1", value "a" and
    entry type [Put], reports ["num-keys" = "1"] from [finish_properties];
    an [add_user_key] with any other entry type leaves both counters
    unchanged. *)
Theorem counting_collector_single_put :
  (forall seq file_size : Z,
     btree_get (lit "num-keys")
       (snd (finish_properties
               (add_user_key factory_impl_create (lit "k1") (lit "a") Put seq file_size)))
     = Some (lit "1")) /\
  (forall (self : TablePropertiesCollectorImpl) (key value : bytes)
          (entry_type : EntryType) (seq file_size : Z),
     entry_type <> Put ->
     num_keys (add_user_key self key value entry_type seq file_size) = num_keys self /\
     total_bytes (add_user_key self key value entry_type seq file_size) = total_bytes self).
Proof.
  split.
  - intros seq file_size. reflexivity.
  - intros self key value entry_type seq file_size Hne. simpl.
    unfold impl_add_user_key. destruct (EntryType_eq_dec entry_type Put);
      [contradiction | split; reflexivity].
Qed.

Lemma counting_collector_single_put_witness :
  Delete <> Put /\
  num_keys (add_user_key factory_impl_create (lit "k2") (lit "b") Delete 1 0) = 0%Z.
Proof.
  assert (Hne : Delete <> Put) by discriminate.
  split; [exact Hne|].
  apply (proj2 counting_collector_single_put factory_impl_create (lit "k2") (lit "b")
           Delete 1%Z 0%Z Hne).
Defined.

(** Claim C8. Every [BTreeMap] the bridge handles, in particular the maps
    returned by [finish_properties] and [get_readable_properties] and the
    maps accumulated by [user_collected_properties] and
    [readable_properties], iterates its pairs in strictly ascending
    byte-lexicographic key order, so its keys are unique; the trampolines
    therefore emit the pairs in strictly ascending key order. *)
Theorem property_maps_ordered :
  (forall m : BTreeMap,
     StronglySorted key_lt (btree_iter m) /\ NoDup (List.map fst (btree_iter m))) /\
  (forall (user_collected_set readable_set : Z -> list entry) (table : TableProperties),
     StronglySorted key_lt (btree_iter (user_collected_properties user_collected_set table)) /\
     NoDup (List.map fst (btree_iter (user_collected_properties user_collected_set table))) /\
     StronglySorted key_lt (btree_iter (readable_properties readable_set table)) /\
     NoDup (List.map fst (btree_iter (readable_properties readable_set table)))) /\
  (forall (C : Type) (inst : TablePropertiesCollector C) (self : C)
          (properties : Z) (callback : option Z),
     StronglySorted call_key_lt
       (snd (collector_finish_properties_callback self properties callback)) /\
     StronglySorted call_key_lt
       (snd (collector_get_readable_properties_callback self properties callback))).
Proof.
  assert (Hm : forall m : BTreeMap,
     StronglySorted key_lt (btree_iter m) /\ NoDup (List.map fst (btree_iter m))).
  { intros m. pose proof (btree_StronglySorted m) as S.
    split; [exact S | apply StronglySorted_NoDup_keys; exact S]. }
  split; [exact Hm|]. split.
  - intros us rs t.
    destruct (Hm (user_collected_properties us t)), (Hm (readable_properties rs t)).
    tauto.
  - intros C inst self properties [callback|]; simpl.
    + unfold collector_finish_properties_callback, collector_get_readable_properties_callback.
      destruct (finish_properties self), (get_readable_properties self); simpl.
      split; apply emit_properties_sorted.
    + split; constructor.
Qed.

(** Claim C9. When the engine's enumeration reports a key several times,
    the map read back holds, for each key, the value of the last pair
    reported under it, and its size is the number of distinct keys
    reported. *)
Theorem inbound_last_value_wins (user_collected_set : Z -> list entry)
    (table : TableProperties) :
  let ps := user_collected_set (inner table) in
  (forall k, btree_get k (user_collected_properties user_collected_set table)
             = last_value k ps) /\
  List.length (btree_iter (user_collected_properties user_collected_set table))
    = List.length (nodup bytes_eq_dec (List.map fst ps)).
Proof.
  cbv zeta.
  change (user_collected_properties user_collected_set table)
    with (read_properties (user_collected_set (inner table))).
  set (ps := user_collected_set (inner table)).
  split; [intros k; apply read_properties_get|].
  unfold btree_iter.
  assert (L : forall l : list entry, List.length l = List.length (List.map fst l))
    by (intros l; rewrite length_map; reflexivity).
  rewrite L.
  apply Permutation_length, NoDup_Permutation.
  - apply StronglySorted_NoDup_keys, btree_StronglySorted.
  - apply NoDup_nodup.
  - intros k. rewrite nodup_In, In_keys_raw_get, <- last_value_In.
    fold (btree_get k (read_properties ps)). rewrite read_properties_get. tauto.
Qed.

(** Claim C10. Given a null add-property pointer, the finish-properties and
    readable-properties trampolines return at once: the collector's
    methods are not called, its state is unchanged and nothing is
    emitted. *)
Theorem null_callback_no_effect {C : Type} `{TablePropertiesCollector C}
    (self : C) (properties : Z) :
  collector_finish_properties_callback self properties None = (self, []) /\
  collector_get_readable_properties_callback self properties None = (self, []).
Proof. split; reflexivity. Qed.

(** * Further properties of the bridge and of the test collector *)

(** ** Helper lemmas *)

Lemma emit_properties_pairs (callback properties : Z) (map : BTreeMap) :
  List.map (fun c => (call_key c, call_value c)) (emit_properties callback properties map)
  = btree_iter map.
Proof.
  unfold emit_properties, btree_iter.
  induction (bt_entries map) as [|[k v] l IH]; simpl; [reflexivity|]. rewrite IH. reflexivity.
Qed.

Lemma emit_read_roundtrip (callback properties : Z) (map : BTreeMap) (ps : list entry) :
  Permutation ps (List.map engine_copy (emit_properties callback properties map)) ->
  read_properties ps = map.
Proof.
  intros P. rewrite emit_properties_copy in P. unfold btree_iter in P.
  assert (Hd : NoDup (List.map fst ps)).
  { eapply Permutation_NoDup.
    - apply Permutation_map, Permutation_sym, P.
    - apply StronglySorted_NoDup_keys, btree_StronglySorted. }
  apply btree_get_ext. intros k.
  rewrite read_properties_get, last_value_raw_get by exact Hd.
  unfold btree_get. apply raw_get_Permutation; assumption.
Qed.

Lemma collection_loop_nonnull (Engine : Type) (next : Engine -> Engine * Z)
    (fuel : nat) (e : Engine) (acc : list TableProperties) (r : Engine * list TableProperties) :
  collection_loop Engine next fuel e acc = Some r ->
  Forall (fun t => inner t <> 0%Z) acc ->
  Forall (fun t => inner t <> 0%Z) (snd r).
Proof.
  revert e acc; induction fuel as [|fuel IH]; intros e acc Hl Hacc; simpl in Hl;
    [discriminate|].
  destruct (next e) as [e1 h].
  destruct (Z.eqb_spec h 0).
  - injection Hl as <-. exact Hacc.
  - apply (IH e1 _ Hl). apply Forall_app. split; [exact Hacc|].
    constructor; [exact n | constructor].
Qed.

Lemma usize_wrap_idemp_l (a b : Z) : usize_wrap (usize_wrap a + b) = usize_wrap (a + b).
Proof. unfold usize_wrap. apply Zplus_mod_idemp_l. Qed.

Lemma usize_wrap_idemp_r (a b : Z) : usize_wrap (a + usize_wrap b) = usize_wrap (a + b).
Proof. unfold usize_wrap. apply Zplus_mod_idemp_r. Qed.

Lemma usize_wrap_small (a : Z) : (0 <= a < 2 ^ 64)%Z -> usize_wrap a = a.
Proof. intros H. unfold usize_wrap. apply Z.mod_small. exact H. Qed.

Lemma usize_wrap_range (a : Z) : (0 <= usize_wrap a < 2 ^ 64)%Z.
Proof. unfold usize_wrap. apply Z.mod_pos_bound. lia. Qed.

(** One [Put] record advances the counters as the whole suffix will. *)
Lemma counters_step (n t c rb : Z) (L : Z) :
  usize_wrap (usize_wrap (n + 1) + c) = usize_wrap (n + (1 + c)) /\
  usize_wrap (usize_wrap (t + usize_wrap L) + rb) = usize_wrap (t + (L + rb)).
Proof.
  split.
  - rewrite usize_wrap_idemp_l. f_equal. lia.
  - rewrite usize_wrap_idemp_l.
    replace (t + usize_wrap L + rb)%Z with ((t + rb) + usize_wrap L)%Z by lia.
    rewrite usize_wrap_idemp_r. f_equal. lia.
Qed.

Lemma digit_byte_spec (d : Z) :
  (0 <= d < 10)%Z ->
  is_ascii_digit (digit_byte d) = true /\
  (Z.of_N (Byte.to_N (digit_byte d)) - 48 = d)%Z /\
  (digit_byte d = x30 -> d = 0%Z).
Proof.
  intros Hd.
  assert (H : (d = 0 \/ d = 1 \/ d = 2 \/ d = 3 \/ d = 4 \/ d = 5 \/ d = 6 \/
               d = 7 \/ d = 8 \/ d = 9)%Z) by lia.
  destruct H as [->|[->|[->|[->|[->|[->|[->|[->|[->| ->]]]]]]]]];
    (split; [reflexivity | split; [reflexivity |]]);
    intros E; vm_compute in E; first [reflexivity | discriminate E].
Qed.

Lemma decimal_fold_shift (l : bytes) (a : Z) :
  fold_left (fun acc b => (acc * 10 + (Z.of_N (Byte.to_N b) - 48))%Z) l a
  = (a * 10 ^ Z.of_nat (List.length l)
     + fold_left (fun acc b => (acc * 10 + (Z.of_N (Byte.to_N b) - 48))%Z) l 0)%Z.
Proof.
  revert a; induction l as [|b l IH]; intros a; cbn [fold_left List.length].
  - simpl. ring.
  - rewrite IH, (IH (0 * 10 + (Z.of_N (Byte.to_N b) - 48))%Z).
    rewrite Nat2Z.inj_succ, Z.pow_succ_r by lia. ring.
Qed.

Lemma decimal_value_cons (b : byte) (l : bytes) :
  decimal_value (b :: l)
  = ((Z.of_N (Byte.to_N b) - 48) * 10 ^ Z.of_nat (List.length l) + decimal_value l)%Z.
Proof. unfold decimal_value. cbn [fold_left]. rewrite decimal_fold_shift. ring. Qed.

Lemma dec_digits_S (fuel : nat) (n : Z) (acc : bytes) :
  dec_digits (S fuel) n acc =
  if (n <? 10)%Z then digit_byte (n mod 10) :: acc
  else dec_digits fuel (n / 10) (digit_byte (n mod 10) :: acc).
Proof. reflexivity. Qed.

Lemma dec_digits_spec (fuel : nat) (n : Z) (acc : bytes) :
  (0 <= n < 10 ^ Z.of_nat (S fuel))%Z ->
  forallb is_ascii_digit (dec_digits (S fuel) n acc) = forallb is_ascii_digit acc /\
  decimal_value (dec_digits (S fuel) n acc)
    = (n * 10 ^ Z.of_nat (List.length acc) + decimal_value acc)%Z /\
  exists d rest, dec_digits (S fuel) n acc = digit_byte d :: rest /\
    (0 <= d < 10)%Z /\ (0 < n -> 0 < d)%Z /\ (n = 0%Z -> rest = acc).
Proof.
  revert n acc; induction fuel as [|fuel IH]; intros n acc Hn.
  - simpl in Hn. rewrite dec_digits_S.
    destruct (Z.ltb_spec n 10); [|lia].
    rewrite Z.mod_small by lia.
    destruct (digit_byte_spec n) as [D1 [D2 _]]; [lia|].
    split; [simpl; rewrite D1; reflexivity|]. split.
    + rewrite decimal_value_cons, D2. reflexivity.
    + exists n, acc. split; [reflexivity|]. repeat split; lia.
  - rewrite (dec_digits_S (S fuel) n acc). destruct (Z.ltb_spec n 10).
    + rewrite Z.mod_small by lia.
      destruct (digit_byte_spec n) as [D1 [D2 _]]; [lia|].
      split; [simpl; rewrite D1; reflexivity|]. split.
      * rewrite decimal_value_cons, D2. reflexivity.
      * exists n, acc. split; [reflexivity|]. repeat split; lia.
    + assert (Hq : (0 <= n / 10 < 10 ^ Z.of_nat (S fuel))%Z).
      { split; [apply Z.div_pos; lia|].
        apply Z.div_lt_upper_bound; [lia|].
        rewrite (Nat2Z.inj_succ (S fuel)), Z.pow_succ_r in Hn by lia. lia. }
      destruct (IH (n / 10)%Z (digit_byte (n mod 10) :: acc) Hq)
        as [F [V [d [rest [R [Hd1 [Hd2 Hd3]]]]]]].
      destruct (digit_byte_spec (n mod 10)) as [D1 [D2 _]];
        [apply Z.mod_pos_bound; lia|].
      split; [rewrite F; simpl; rewrite D1; reflexivity|]. split.
      * rewrite V, decimal_value_cons, D2. simpl List.length.
        rewrite Nat2Z.inj_succ, Z.pow_succ_r by lia.
        assert (Hdm : n = (10 * (n / 10) + n mod 10)%Z) by (apply Z.div_mod; lia).
        remember (n / 10)%Z as q. remember (n mod 10)%Z as r.
        rewrite Hdm. ring.
      * exists d, rest. split; [exact R|]. split; [exact Hd1|]. split.
        -- intros _. apply Hd2. apply Z.div_str_pos. lia.
        -- intros ->. lia.
Qed.

Lemma no_leading_zero (x : byte) (l : bytes) :
  x <> x30 -> match x :: l with x30 :: _ :: _ => False | _ => True end.
Proof. intros H. destruct x; trivial. congruence. Qed.

Lemma usize_to_string_renders (n : Z) :
  (0 <= n < 2 ^ 64)%Z -> renders_decimal (usize_to_string n) n.
Proof.
  intros Hn. unfold usize_to_string.
  destruct (dec_digits_spec 19 n [])
    as [F [V [d [rest [R [Hd1 [Hd2 Hd3]]]]]]].
  { split; [lia|]. apply (Z.lt_le_trans _ (2 ^ 64)); [lia|]. vm_compute. discriminate. }
  unfold renders_decimal. split; [rewrite R; discriminate|]. split; [exact F|]. split.
  - rewrite V. change (Z.of_nat (List.length [])) with 0%Z.
    rewrite Z.pow_0_r. change (decimal_value []) with 0%Z. ring.
  - rewrite R. destruct (digit_byte_spec d Hd1) as [_ [_ D3]].
    destruct (Byte.byte_eq_dec (digit_byte d) x30) as [E|E].
    + apply D3 in E. subst d. destruct (Z.eq_dec n 0) as [->|Hn0].
      * rewrite (Hd3 eq_refl). exact I.
      * lia.
    + apply no_leading_zero. exact E.
Qed.

(** A build whose tags all decode runs to completion. *)
Lemma run_build_total (ffi : ffi_entry_consts) {C : Type} `{TablePropertiesCollector C}
    (calls : list build_call) :
  Forall (call_tag_ok ffi) calls -> forall self : C, exists c, run_build ffi self calls = Some c.
Proof.
  induction 1 as [|call rest Hc _ IH]; intros self; [exists self; reflexivity|].
  destruct call as [rk kl rv vl t sq fs | a b c]; simpl in *.
  - unfold collector_add_user_key_callback.
    destruct (EntryType_from_raw ffi t); [apply IH | contradiction].
  - apply IH.
Qed.

(** The counting collector through the trampolines: the counters follow the
    [Put] records of the build, modulo [2^64]. *)
Lemma run_build_impl_counts (ffi : ffi_entry_consts) (calls : list build_call) :
  forall (self c : TablePropertiesCollectorImpl),
  (0 <= num_keys self < 2 ^ 64)%Z -> (0 <= total_bytes self < 2 ^ 64)%Z ->
  run_build ffi self calls = Some c ->
  num_keys c = usize_wrap (num_keys self + Z.of_nat (List.length (put_records ffi calls))) /\
  total_bytes c = usize_wrap (total_bytes self + record_bytes (put_records ffi calls)) /\
  tpci_name c = tpci_name self.
Proof.
  induction calls as [|call rest IH]; intros self c Hn Ht Hr; simpl in Hr.
  - injection Hr as <-. simpl. rewrite !Z.add_0_r, (usize_wrap_small _ Hn), (usize_wrap_small _ Ht).
    repeat split.
  - destruct call as [rk kl rv vl t sq fs | a b cc].
    + unfold collector_add_user_key_callback in Hr. simpl put_records.
      destruct (EntryType_from_raw ffi t) as [et|]; [|discriminate].
      destruct et;
        try (apply (IH self c Hn Ht Hr)).
      apply IH in Hr; [|apply usize_wrap_range|apply usize_wrap_range].
      destruct Hr as [H1 [H2 H3]]. simpl in H1, H2, H3.
      destruct (counters_step (num_keys self) (total_bytes self)
                  (Z.of_nat (List.length (put_records ffi rest)))
                  (record_bytes (put_records ffi rest))
                  (Z.of_nat (List.length (slice_from_raw_parts rk kl))
                   + Z.of_nat (List.length (slice_from_raw_parts rv vl)))) as [S1 S2].
      rewrite H1, H2, H3, S1, S2. simpl List.length. rewrite Nat2Z.inj_succ.
      unfold record_bytes at 2. simpl fold_right. fold (record_bytes (put_records ffi rest)).
      repeat split; f_equal; lia.
    + exact (IH self c Hn Ht Hr).
Qed.

(** The counting collector at the trait level: the counters follow the
    [Put] records, modulo [2^64]. *)
Lemma feed_impl_counts (records : list user_key_record) :
  forall self : TablePropertiesCollectorImpl,
  (0 <= num_keys self < 2 ^ 64)%Z -> (0 <= total_bytes self < 2 ^ 64)%Z ->
  num_keys (feed self records) =
    usize_wrap (num_keys self + Z.of_nat (List.length (put_pairs records))) /\
  total_bytes (feed self records) =
    usize_wrap (total_bytes self + record_bytes (put_pairs records)) /\
  tpci_name (feed self records) = tpci_name self.
Proof.
  induction records as [|[[[[k v] et] sq] fs] rest IH]; intros self Hn Ht.
  - simpl. rewrite !Z.add_0_r, (usize_wrap_small _ Hn), (usize_wrap_small _ Ht).
    repeat split.
  - change (feed self ((k, v, et, sq, fs) :: rest))
      with (feed (impl_add_user_key self k v et sq fs) rest).
    unfold put_pairs. simpl filter.
    destruct (EntryType_eq_dec et Put) as [->|Hne]; simpl List.map; fold (put_pairs rest).
    + change (record_bytes ((k, v) :: put_pairs rest))
        with (Z.of_nat (List.length k) + Z.of_nat (List.length v)
              + record_bytes (put_pairs rest))%Z.
      destruct (IH (impl_add_user_key self k v Put sq fs)) as [H1 [H2 H3]];
        [apply usize_wrap_range | apply usize_wrap_range |].
      rewrite H1, H2, H3.
      change (impl_add_user_key self k v Put sq fs) with
        {| tpci_name := tpci_name self;
           num_keys := usize_wrap (num_keys self + 1);
           total_bytes := usize_wrap (total_bytes self
                            + usize_wrap (Z.of_nat (List.length k)
                                          + Z.of_nat (List.length v))) |}.
      cbn [num_keys total_bytes tpci_name].
      destruct (counters_step (num_keys self) (total_bytes self)
                  (Z.of_nat (List.length (put_pairs rest)))
                  (record_bytes (put_pairs rest))
                  (Z.of_nat (List.length k) + Z.of_nat (List.length v))) as [S1 S2].
      rewrite S1, S2. simpl List.length. rewrite Nat2Z.inj_succ.
      repeat split; f_equal; lia.
    + assert (Es : impl_add_user_key self k v et sq fs = self).
      { unfold impl_add_user_key. destruct (EntryType_eq_dec et Put); [contradiction | reflexivity]. }
      rewrite Es. exact (IH self Hn Ht).
Qed.

Lemma record_bytes_nonneg (ps : list entry) : (0 <= record_bytes ps)%Z.
Proof. induction ps as [|[k v] ps IH]; simpl; lia. Qed.

(** The pairs of the counting collector's [finish_properties] map, in
    iteration order. *)
Lemma impl_finish_iter (self : TablePropertiesCollectorImpl) :
  btree_iter (snd (impl_finish_properties self)) =
  [(lit "num-keys", usize_to_string (num_keys self));
   (lit "total-bytes", usize_to_string (total_bytes self))].
Proof. reflexivity. Qed.


(** ** Extra properties *)

(** [EntryType::from_raw] is sound: for an [i32] value, a decoded variant
    is the variant whose tag equals the value, whatever the tag constants
    (distinct or not). *)
Theorem EntryType_from_raw_sound (ffi : ffi_entry_consts) (v : Z) (e : EntryType) :
  (- 2 ^ 31 <= v < 2 ^ 31)%Z ->
  EntryType_from_raw ffi v = Some e -> v = entry_tag ffi e.
Proof.
  intros Hr. unfold EntryType_from_raw. destruct (Z.ltb_spec v 0); [discriminate|].
  rewrite i32_as_u32_nonneg by lia.
  repeat match goal with
         | |- (if (v =? ?c)%Z then _ else _) = _ -> _ =>
             destruct (Z.eqb_spec v c) as [Ev|_];
             [intros Hs; injection Hs as <-; exact Ev|]
         end.
  discriminate.
Qed.

Lemma EntryType_from_raw_sound_witness :
  (- 2 ^ 31 <= 3 < 2 ^ 31)%Z /\ EntryType_from_raw ffi_entry_consts_0_9 3 = Some Merge /\
  3%Z = entry_tag ffi_entry_consts_0_9 Merge.
Proof.
  assert (Hr : (- 2 ^ 31 <= 3 < 2 ^ 31)%Z) by lia.
  assert (Hd : EntryType_from_raw ffi_entry_consts_0_9 3 = Some Merge) by reflexivity.
  split; [exact Hr | split; [exact Hd|]].
  exact (EntryType_from_raw_sound ffi_entry_consts_0_9 3 Merge Hr Hd).
Defined.


(** [TablePropertiesCollection::from_raw] never stores a null table
    pointer. *)
Theorem collection_from_raw_nonnull (Engine : Type) (next : Engine -> Engine * Z)
    (fuel : nat) (e e' : Engine) (col : TablePropertiesCollection) :
  TablePropertiesCollection_from_raw Engine next fuel e = Some (e', col) ->
  Forall (fun t => inner t <> 0%Z) (tables col).
Proof.
  unfold TablePropertiesCollection_from_raw.
  destruct (collection_loop Engine next fuel e []) as [[e1 ts]|] eqn:L; [|discriminate].
  intros Hs. injection Hs as <- <-. simpl.
  exact (collection_loop_nonnull Engine next fuel e [] (e1, ts) L (Forall_nil _)).
Qed.

Lemma collection_from_raw_nonnull_witness :
  TablePropertiesCollection_from_raw (list Z) list_collection_next 4 [7; 3]%Z
    = Some ([], {| tables := [TableProperties_from_raw 7; TableProperties_from_raw 3] |}) /\
  Forall (fun t => inner t <> 0%Z) [TableProperties_from_raw 7; TableProperties_from_raw 3].
Proof.
  assert (Hs : TablePropertiesCollection_from_raw (list Z) list_collection_next 4 [7; 3]%Z
    = Some ([], {| tables := [TableProperties_from_raw 7; TableProperties_from_raw 3] |}))
    by reflexivity.
  split; [exact Hs|].
  exact (collection_from_raw_nonnull (list Z) list_collection_next 4 [7; 3]%Z [] _ Hs).
Defined.

(** Round trip through the readable channel: the pairs the
    readable-properties trampoline emits, copied by the engine and read back
    by [readable_properties] in any order, rebuild the map
    [get_readable_properties] returned. *)
Theorem readable_properties_roundtrip {C : Type} {inst : TablePropertiesCollector C}
    (self : C) (properties callback : Z) (readable_set : Z -> list entry)
    (table : TableProperties) :
  Permutation (readable_set (inner table))
    (List.map engine_copy
       (snd (collector_get_readable_properties_callback self properties (Some callback)))) ->
  readable_properties readable_set table = snd (get_readable_properties self).
Proof.
  intros P. unfold collector_get_readable_properties_callback in P.
  destruct (get_readable_properties self) as [self' map]; simpl in *.
  exact (emit_read_roundtrip callback properties map _ P).
Qed.

Lemma readable_properties_roundtrip_witness :
  Permutation
    (rev (List.map engine_copy
       (snd (@collector_get_readable_properties_callback _ readable_echo_collector
               factory_impl_create 0 (Some 1%Z)))))
    (List.map engine_copy
       (snd (@collector_get_readable_properties_callback _ readable_echo_collector
               factory_impl_create 0 (Some 1%Z)))) /\
  readable_properties
    (fun _ => rev (List.map engine_copy
       (snd (@collector_get_readable_properties_callback _ readable_echo_collector
               factory_impl_create 0 (Some 1%Z)))))
    (TableProperties_from_raw 5)
  = snd (@get_readable_properties _ readable_echo_collector factory_impl_create).
Proof.
  assert (P : Permutation
    (rev (List.map engine_copy
       (snd (@collector_get_readable_properties_callback _ readable_echo_collector
               factory_impl_create 0 (Some 1%Z)))))
    (List.map engine_copy
       (snd (@collector_get_readable_properties_callback _ readable_echo_collector
               factory_impl_create 0 (Some 1%Z))))).
  { apply Permutation_sym, Permutation_rev. }
  split; [exact P|].
  exact (@readable_properties_roundtrip _ readable_echo_collector factory_impl_create 0 1
           _ (TableProperties_from_raw 5) P).
Defined.

(** The counting collector's [add_user_key], over a sequence of records
    without overflow: [num_keys] grows by the number of [Put] records,
    [total_bytes] by the sum of their key and value lengths, and the name
    is kept; records of other types change nothing. *)
Theorem counting_collector_feed (self : TablePropertiesCollectorImpl)
    (records : list user_key_record) :
  (0 <= num_keys self)%Z -> (0 <= total_bytes self)%Z ->
  (num_keys self + Z.of_nat (List.length (put_pairs records)) < 2 ^ 64)%Z ->
  (total_bytes self + record_bytes (put_pairs records) < 2 ^ 64)%Z ->
  num_keys (feed self records) = (num_keys self + Z.of_nat (List.length (put_pairs records)))%Z /\
  total_bytes (feed self records) = (total_bytes self + record_bytes (put_pairs records))%Z /\
  tpci_name (feed self records) = tpci_name self.
Proof.
  intros Hn0 Ht0 Hn Ht.
  pose proof (record_bytes_nonneg (put_pairs records)).
  destruct (feed_impl_counts records self) as [H1 [H2 H3]]; [lia | lia |].
  rewrite H1, H2, H3, !usize_wrap_small by lia. repeat split.
Qed.


Lemma counting_collector_feed_witness :
  (0 <= num_keys factory_impl_create)%Z /\ (0 <= total_bytes factory_impl_create)%Z /\
  (num_keys factory_impl_create
     + Z.of_nat (List.length (put_pairs feed_witness_records)) < 2 ^ 64)%Z /\
  (total_bytes factory_impl_create + record_bytes (put_pairs feed_witness_records) < 2 ^ 64)%Z /\
  num_keys (feed factory_impl_create feed_witness_records) = 2%Z.
Proof.
  assert (H1 : (0 <= num_keys factory_impl_create)%Z) by (simpl; lia).
  assert (H2 : (0 <= total_bytes factory_impl_create)%Z) by (simpl; lia).
  assert (H3 : (num_keys factory_impl_create
     + Z.of_nat (List.length (put_pairs feed_witness_records)) < 2 ^ 64)%Z)
    by (vm_compute; reflexivity).
  assert (H4 : (total_bytes factory_impl_create
     + record_bytes (put_pairs feed_witness_records) < 2 ^ 64)%Z)
    by (vm_compute; reflexivity).
  split; [exact H1 | split; [exact H2 | split; [exact H3 | split; [exact H4|]]]].
  exact (proj1 (counting_collector_feed factory_impl_create feed_witness_records
                  H1 H2 H3 H4)).
Defined.

(** The counting collector's [finish_properties] keeps the collector and
    returns exactly two pairs, "num-keys" then "total-bytes", whose values
    are the canonical decimal renderings of the two counters. *)
Theorem counting_collector_finish (self : TablePropertiesCollectorImpl) :
  (0 <= num_keys self < 2 ^ 64)%Z -> (0 <= total_bytes self < 2 ^ 64)%Z ->
  fst (finish_properties self) = self /\
  btree_iter (snd (finish_properties self)) =
    [(lit "num-keys", usize_to_string (num_keys self));
     (lit "total-bytes", usize_to_string (total_bytes self))] /\
  renders_decimal (usize_to_string (num_keys self)) (num_keys self) /\
  renders_decimal (usize_to_string (total_bytes self)) (total_bytes self).
Proof.
  intros Hn Ht. split; [reflexivity|]. split; [apply impl_finish_iter|].
  split; apply usize_to_string_renders; assumption.
Qed.

Lemma counting_collector_finish_witness :
  (0 <= num_keys (feed factory_impl_create feed_witness_records) < 2 ^ 64)%Z /\
  (0 <= total_bytes (feed factory_impl_create feed_witness_records) < 2 ^ 64)%Z /\
  renders_decimal (lit "5") (total_bytes (feed factory_impl_create feed_witness_records)).
Proof.
  assert (H1 : (0 <= num_keys (feed factory_impl_create feed_witness_records) < 2 ^ 64)%Z)
    by (vm_compute; split; [discriminate | reflexivity]).
  assert (H2 : (0 <= total_bytes (feed factory_impl_create feed_witness_records) < 2 ^ 64)%Z)
    by (vm_compute; split; [discriminate | reflexivity]).
  split; [exact H1 | split; [exact H2|]].
  exact (proj2 (proj2 (proj2
           (counting_collector_finish (feed factory_impl_create feed_witness_records) H1 H2)))).
Defined.

(** End to end, for the conformance test's factory and collector: the
    create trampoline (at any level) keeps the factory and hands over a
    fresh collector; a build whose tags all decode does not panic, ignores
    block-add calls and non-[Put] entries; the finish trampoline then emits
    exactly "num-keys" and "total-bytes", rendering the number of [Put]
    entries and the sum of their key and value lengths. *)
Theorem test_collector_build_emits (ffi : ffi_entry_consts)
    (factory : TablePropertiesCollectorFactoryImpl) (level : Z)
    (calls : list build_call) (properties callback : Z) :
  Forall (call_tag_ok ffi) calls ->
  (Z.of_nat (List.length (put_records ffi calls)) < 2 ^ 64)%Z ->
  (record_bytes (put_records ffi calls) < 2 ^ 64)%Z ->
  fst (create_table_properties_collector_callback factory level) = factory /\
  exists c : TablePropertiesCollectorImpl,
    run_build ffi (snd (create_table_properties_collector_callback factory level)) calls
      = Some c /\
    collector_name c = lit "table-properties-collector" /\
    List.map (fun x => (call_key x, call_value x))
      (snd (collector_finish_properties_callback c properties (Some callback))) =
    [(lit "num-keys", usize_to_string (Z.of_nat (List.length (put_records ffi calls))));
     (lit "total-bytes", usize_to_string (record_bytes (put_records ffi calls)))].
Proof.
  intros Hf Hn Ht. split; [reflexivity|].
  destruct (run_build_total ffi calls Hf factory_impl_create) as [c Hc].
  exists c. split; [exact Hc|].
  pose proof (record_bytes_nonneg (put_records ffi calls)).
  destruct (run_build_impl_counts ffi calls factory_impl_create c) as [H1 [H2 H3]];
    [simpl; lia | simpl; lia | exact Hc |].
  simpl in H1, H2, H3. split; [exact H3|].
  unfold collector_finish_properties_callback.
  change (finish_properties c) with (c, snd (impl_finish_properties c)).
  cbv beta iota.
  change (snd (c, ?x)) with x.
  rewrite emit_properties_pairs, impl_finish_iter, H1, H2, !usize_wrap_small by lia.
  reflexivity.
Qed.

Lemma test_collector_build_emits_witness :
  Forall (call_tag_ok ffi_entry_consts_0_9) build_witness_calls /\
  (Z.of_nat (List.length (put_records ffi_entry_consts_0_9 build_witness_calls)) < 2 ^ 64)%Z /\
  (record_bytes (put_records ffi_entry_consts_0_9 build_witness_calls) < 2 ^ 64)%Z /\
  exists c : TablePropertiesCollectorImpl,
    run_build ffi_entry_consts_0_9
      (snd (create_table_properties_collector_callback
              {| tpcfi_name := lit "table-properties-collector-factory" |} 0)) build_witness_calls
      = Some c /\
    collector_name c = lit "table-properties-collector" /\
    List.map (fun x => (call_key x, call_value x))
      (snd (collector_finish_properties_callback c 0 (Some 1%Z))) =
    [(lit "num-keys", usize_to_string
        (Z.of_nat (List.length (put_records ffi_entry_consts_0_9 build_witness_calls))));
     (lit "total-bytes", usize_to_string
        (record_bytes (put_records ffi_entry_consts_0_9 build_witness_calls)))].
Proof.
  assert (Hf : Forall (call_tag_ok ffi_entry_consts_0_9) build_witness_calls).
  { repeat constructor; simpl; intros Hc; discriminate Hc. }
  assert (Hn : (Z.of_nat (List.length (put_records ffi_entry_consts_0_9 build_witness_calls))
                < 2 ^ 64)%Z) by (vm_compute; reflexivity).
  assert (Ht : (record_bytes (put_records ffi_entry_consts_0_9 build_witness_calls)
                < 2 ^ 64)%Z) by (vm_compute; reflexivity).
  split; [exact Hf | split; [exact Hn | split; [exact Ht|]]].
  exact (proj2 (test_collector_build_emits ffi_entry_consts_0_9
                  {| tpcfi_name := lit "table-properties-collector-factory" |} 0
                  build_witness_calls 0 1 Hf Hn Ht)).
Defined.

(** [table_property_reader] copies the reported key and value and changes
    the accumulated map at that key only. *)
Theorem table_property_reader_get (map : BTreeMap) (key_data : bytes) (key_len : nat)
    (value_data : bytes) (value_len : nat) (k : bytes) :
  btree_get k (table_property_reader map key_data key_len value_data value_len) =
  if bytes_eqb k (slice_from_raw_parts key_data key_len)
  then Some (slice_from_raw_parts value_data value_len)
  else btree_get k map.
Proof. unfold table_property_reader, btree_get, btree_insert. simpl. apply raw_get_insert. Qed.

(** For a collector keeping the default [block_add], the block-add calls of
    a build have no effect: the build ends as the same build without
    them. *)
Theorem default_block_add_build_erasure (ffi : ffi_entry_consts) {C : Type}
    {inst : TablePropertiesCollector C} (self : C) (calls : list build_call) :
  block_add_override = None ->
  run_build ffi self calls = run_build ffi self (filter is_add_call calls).
Proof.
  intros Hd. revert self; induction calls as [|call rest IH]; intros self; [reflexivity|].
  destruct call as [rk kl rv vl t sq fs | a b c]; simpl.
  - destruct (collector_add_user_key_callback ffi self rk kl rv vl t sq fs); [apply IH | reflexivity].
  - unfold collector_block_add_callback, block_add. rewrite Hd. apply IH.
Qed.

Lemma default_block_add_build_erasure_witness :
  @block_add_override _ default_methods_collector = None /\
  @run_build ffi_entry_consts_0_9 _ default_methods_collector factory_impl_create
    build_witness_calls =
  @run_build ffi_entry_consts_0_9 _ default_methods_collector factory_impl_create
    (filter is_add_call build_witness_calls).
Proof.
  assert (Hd : @block_add_override _ default_methods_collector = None) by reflexivity.
  split; [exact Hd|].
  exact (@default_block_add_build_erasure ffi_entry_consts_0_9 _ default_methods_collector
           factory_impl_create build_witness_calls Hd).
Defined.
